(** * qoa2wav: the QOA to WAV converter of tools/ExtractTimToPng/qoa2wav.c

    A shallow embedding of the converter and the properties of its
    specification.  The C program is modelled function by function:
    [write_wav_header], [convert_qoa_to_wav] and [main].  Whatever the C text
    leaves to the platform (byte order of the host, what [fopen] does on a
    directory, which paths can be created) is gathered in a [platform]
    record; the QOA decoder of [qoa.h] is a parameter. *)

From Stdlib Require Import ZArith Strings.Byte Ascii String DecimalString.
From stdpp Require Import gmap strings list.

Local Open Scope Z_scope.

(** ** Machine integers *)

(** [uint32_t] and [uint16_t] arithmetic wraps around. *)
Definition u32 (z : Z) : Z := z mod 2 ^ 32.
Definition u16 (z : Z) : Z := z mod 2 ^ 16.

(** A [short] read back from its 16-bit pattern (two's complement). *)
Definition s16 (z : Z) : Z :=
  let r := z mod 2 ^ 16 in if r <? 2 ^ 15 then r else r - 2 ^ 16.

(** [(int)file_size]: a [long] converted to a 32-bit [int]. *)
Definition int_of_long (z : Z) : Z :=
  let r := z mod 2 ^ 32 in if r <? 2 ^ 31 then r else r - 2 ^ 32.

Definition byte_of_Z (z : Z) : byte :=
  default x00 (Byte.of_N (Z.to_N (z mod 256))).

Definition Z_of_byte (b : byte) : Z := Z.of_N (Byte.to_N b).

#[global] Instance byte_eq_decision : EqDecision byte := Byte.byte_eq_dec.

(** ** Object representation of integers *)

Inductive endianness := LittleEndian | BigEndian.

(** The [n] low-order bytes of [z], least significant first. *)
Fixpoint le_bytes (n : nat) (z : Z) : list byte :=
  match n with
  | O => []
  | S n' => byte_of_Z (z mod 256) :: le_bytes n' (z / 256)
  end.

(** The bytes an [n]-byte integer object holding [z] occupies in memory. *)
Definition mem_bytes (e : endianness) (n : nat) (z : Z) : list byte :=
  match e with
  | LittleEndian => le_bytes n z
  | BigEndian => reverse (le_bytes n z)
  end.

(** Reading a byte sequence as a number, first byte least significant. *)
Fixpoint le_value (bs : list byte) : Z :=
  match bs with
  | [] => 0
  | b :: bs' => Z_of_byte b + 256 * le_value bs'
  end.

(** Reading a byte sequence as a number, first byte most significant. *)
Definition be_value (bs : list byte) : Z := le_value (reverse bs).

(** Reading an integer object back on a host of byte order [e]. *)
Definition mem_value (e : endianness) (bs : list byte) : Z :=
  match e with
  | LittleEndian => le_value bs
  | BigEndian => be_value bs
  end.

(** [len] bytes of [bs] starting at offset [off]. *)
Definition slice (off len : nat) (bs : list byte) : list byte :=
  take len (drop off bs).

(** The unsigned integer field of [len] bytes at offset [off]. *)
Definition field_at (e : endianness) (off len : nat) (bs : list byte) : Z :=
  mem_value e (slice off len bs).

(** ** Layout of a C struct *)

(** The members [wav_header_t] is built from. *)
Inductive member :=
  | Chars (cs : list byte)
  | U32 (v : Z)
  | U16 (v : Z).

Definition member_size (m : member) : nat :=
  match m with
  | Chars cs => length cs
  | U32 _ => 4
  | U16 _ => 2
  end.

Definition member_align (m : member) : nat :=
  match m with
  | Chars _ => 1
  | U32 _ => 4
  | U16 _ => 2
  end.

Definition member_bytes (e : endianness) (m : member) : list byte :=
  match m with
  | Chars cs => cs
  | U32 v => mem_bytes e 4 v
  | U16 v => mem_bytes e 2 v
  end.

(** Bytes to skip at offset [off] to reach a multiple of [align]. *)
Definition padding (off align : nat) : nat :=
  ((align - off `mod` align) `mod` align)%nat.

(** Members laid out in declaration order, each at the next offset that is a
    multiple of its alignment.  Padding bytes are shown as zero. *)
Fixpoint layout (e : endianness) (off : nat) (ms : list member) : list byte :=
  match ms with
  | [] => []
  | m :: ms' =>
      let pad := padding off (member_align m) in
      replicate pad x00 ++ member_bytes e m
        ++ layout e (off + pad + member_size m) ms'
  end.

Definition struct_align (ms : list member) : nat :=
  foldr (fun m a => Nat.max (member_align m) a) 1%nat ms.

(** The object representation of a struct: what [fwrite (&s, sizeof s, 1, fp)]
    sends to the stream. *)
Definition struct_bytes (e : endianness) (ms : list member) : list byte :=
  let body := layout e 0 ms in
  body ++ replicate (padding (length body) (struct_align ms)) x00.

(** ** The WAV header *)

(** [wav_header_t]: the canonical RIFF/WAVE header, member by member. *)
Record wav_header_t := {
  riff : list byte;          (* char riff[4]: "RIFF" *)
  file_size : Z;             (* uint32_t: file size - 8 *)
  wave : list byte;          (* char wave[4]: "WAVE" *)
  fmt : list byte;           (* char fmt[4]: "fmt " *)
  fmt_size : Z;              (* uint32_t: 16 for PCM *)
  audio_format : Z;          (* uint16_t: 1 for PCM *)
  num_channels : Z;          (* uint16_t *)
  sample_rate : Z;           (* uint32_t *)
  byte_rate : Z;             (* uint32_t *)
  block_align : Z;           (* uint16_t *)
  bits_per_sample : Z;       (* uint16_t *)
  data : list byte;          (* char data[4]: "data" *)
  data_size : Z              (* uint32_t *)
}.

(** The members of the struct in declaration order. *)
Definition header_members (h : wav_header_t) : list member :=
  [ Chars (riff h); U32 (file_size h); Chars (wave h); Chars (fmt h);
    U32 (fmt_size h); U16 (audio_format h); U16 (num_channels h);
    U32 (sample_rate h); U32 (byte_rate h); U16 (block_align h);
    U16 (bits_per_sample h); Chars (data h); U32 (data_size h) ].

(** [memcpy (dst, "....", 4)]: the four characters of a chunk tag. *)
Definition tag (s : string) : list byte := take 4 (list_byte_of_string s).

(** The header [write_wav_header] fills in.  [sample_rate] and [num_samples]
    are [uint32_t], [channels] is [uint16_t]; every product is computed in
    [unsigned int], and the stores to 16-bit members truncate. *)
Definition wav_header (sample_rate channels num_samples : Z) : wav_header_t :=
  let data_size := u32 (num_samples * channels * 2) in
  {| riff := tag "RIFF";
     file_size := u32 (data_size + 36);
     wave := tag "WAVE";
     fmt := tag "fmt ";
     fmt_size := 16;
     audio_format := 1;
     num_channels := channels;
     sample_rate := sample_rate;
     byte_rate := u32 (sample_rate * channels * 2);
     block_align := u16 (channels * 2);
     bits_per_sample := 16;
     data := tag "data";
     data_size := data_size |}.

(** [write_wav_header]: the bytes the function writes to [fp]. *)
Definition write_wav_header (e : endianness)
    (sample_rate channels num_samples : Z) : list byte :=
  struct_bytes e (header_members (wav_header sample_rate channels num_samples)).

(** ** Files, streams and the console *)

(** What a path names: a regular file with its content, or a directory. *)
Inductive node :=
  | File (content : list byte)
  | Dir.

(** The state a run of the tool sees and changes: the file system and the
    text sent so far to the two console streams.  The file system is keyed
    by the path as it is spelled; it does not relate two spellings of one
    file. *)
Record world := {
  files : gmap string node;
  stdout : list string;
  stderr : list string
}.

(** What the C text leaves to the platform. *)
Record platform := {
  (* byte order of the integer objects [fwrite] copies out of memory *)
  byte_order : endianness;
  (* [fopen (dir, "rb")] on a directory: [None] when it fails; when it
     succeeds, the bytes the read buffer holds after [ftell] and [fread] *)
  dir_stream : option (list byte);
  (* the paths at which [fopen (path, "wb")] can create or truncate a file *)
  creatable : string -> bool
}.

(** Modelled from the spec: [qoa_desc] is declared in [qoa.h], which is not
    among the sources; the converter reads three [unsigned int] members of
    it: the channel count, the sample rate and the number of samples per
    channel (the frame count of the specification). *)
Record qoa_desc := {
  channels : Z;
  samplerate : Z;
  samples : Z
}.

(** The line feed of the C format strings. *)
Definition nl : string := String (ascii_of_nat 10) EmptyString.

(** [%u] *)
Definition fmt_u (z : Z) : string := NilZero.string_of_uint (N.to_uint (Z.to_N z)).

Definition printf (s : string) (w : world) : world :=
  {| files := files w; stdout := stdout w ++ [s]; stderr := stderr w |}.

Definition eprintf (s : string) (w : world) : world :=
  {| files := files w; stdout := stdout w; stderr := stderr w ++ [s] |}.

(** [fwrite] on the stream opened on [path]: the bytes are appended. *)
Definition fwrite (path : string) (bs : list byte) (w : world) : world :=
  {| files := alter (fun n => match n with
                              | File content => File (content ++ bs)
                              | Dir => Dir
                              end) path (files w);
     stdout := stdout w; stderr := stderr w |}.

(** The object representation of an array of [short]. *)
Definition shorts_bytes (e : endianness) (l : list Z) : list byte :=
  flat_map (mem_bytes e 2) l.

(** The [short]s stored in [bs], two bytes each, each pair read with [rd]. *)
Fixpoint read_shorts (rd : list byte -> Z) (bs : list byte) : list Z :=
  match bs with
  | b0 :: b1 :: bs' => s16 (rd [b0; b1]) :: read_shorts rd bs'
  | _ => []
  end.

(** ** C strings

    A C string is modelled by the [string] of its characters before the
    terminating NUL. *)

(** [strrchr (s, c)]: the offset of the last [c] in [s], if any. *)
Fixpoint strrchr (s : string) (c : ascii) : option nat :=
  match s with
  | EmptyString => None
  | String a s' =>
      match strrchr s' c with
      | Some i => Some (S i)
      | None => if Ascii.eqb a c then Some O else None
      end
  end.

(** [char wav_path[512]] *)
Definition WAV_PATH_SIZE : nat := 512.

(** [strcpy (wav_path + pos, src)] on a buffer holding [buf]: the characters
    before [pos] stay, [src] and its NUL follow.  Writing past the end of the
    array is undefined: [None]. *)
Definition strcpy_at (buf : string) (pos : nat) (src : string) : option string :=
  if decide (pos + String.length src + 1 <= WAV_PATH_SIZE)%nat
  then Some (substring 0 pos buf +:+ src)
  else None.

(** The [else] branch of [main] (lines 115 to 121): the output path when the
    command line gives none. *)
Definition derive_wav_path (input : string) : option string :=
  wav_path ← strcpy_at "" 0 input;
  match strrchr wav_path "." with
  | Some ext => strcpy_at wav_path ext ".wav"
  | None => strcpy_at wav_path (String.length wav_path) ".wav"
  end.

(** ** The converter *)

Section Converter.

Variable pf : platform.

(** [qoa_decode (bytes, size, &qoa)] of [qoa.h]: [None] for a NULL result,
    otherwise the decoded samples and the descriptor it fills in. *)
Variable qoa_decode : list byte -> Z -> option (list Z * qoa_desc).

(** [fopen (path, "rb")] followed by reading the whole stream. *)
Definition fopen_rb (w : world) (path : string) : option (list byte) :=
  match files w !! path with
  | Some (File content) => Some content
  | Some Dir => dir_stream pf
  | None => None
  end.

(** [fopen (path, "wb")]: the file is created or truncated. *)
Definition fopen_wb (w : world) (path : string) : option world :=
  match files w !! path with
  | Some Dir => None
  | _ =>
      if creatable pf path
      then Some {| files := <[path := File []]> (files w);
                   stdout := stdout w; stderr := stderr w |}
      else None
  end.

(** [convert_qoa_to_wav]: the world after the call and the value returned.
    [qoa.channels] is converted to the [uint16_t] parameter of
    [write_wav_header]; the sample count [qoa.samples * qoa.channels] is an
    [unsigned int] product.  The decoder's buffer holds that many [short]s;
    the model of the second [fwrite] copies that many and stops at the end
    of the list. *)
Definition convert_qoa_to_wav (qoa_path wav_path : string) (w : world)
    : world * Z :=
  match fopen_rb w qoa_path with
  | None =>
      (eprintf ("Error: Cannot open QOA file: " +:+ qoa_path +:+ nl) w, 1)
  | Some qoa_data =>
      let file_size := Z.of_nat (length qoa_data) in
      match qoa_decode qoa_data (int_of_long file_size) with
      | None => (eprintf ("Error: Failed to decode QOA file" +:+ nl) w, 1)
      | Some (sample_data, qoa) =>
          let w := printf ("Decoded: " +:+ fmt_u (samples qoa)
                           +:+ " samples, " +:+ fmt_u (channels qoa)
                           +:+ " channels, " +:+ fmt_u (samplerate qoa)
                           +:+ " Hz" +:+ nl) w in
          match fopen_wb w wav_path with
          | None =>
              (eprintf ("Error: Cannot create WAV file: " +:+ wav_path
                        +:+ nl) w, 1)
          | Some w =>
              let w := fwrite wav_path
                         (write_wav_header (byte_order pf) (samplerate qoa)
                            (u16 (channels qoa))
                            (u32 (samples qoa * channels qoa))) w in
              let w := fwrite wav_path
                         (shorts_bytes (byte_order pf)
                            (take (Z.to_nat (u32 (samples qoa * channels qoa)))
                               sample_data)) w in
              (printf ("✓ Converted: " +:+ qoa_path +:+ " -> " +:+ wav_path
                       +:+ nl) w, 0)
          end
      end
  end.

(** The three lines of usage text. *)
Definition usage (argv0 : string) : list string :=
  [ "QOA to WAV Converter" +:+ nl;
    "Usage: " +:+ argv0 +:+ " <input.qoa> [output.wav]" +:+ nl;
    "   or: " +:+ argv0 +:+ " <directory>" +:+ nl ].

(** [main], with [argv[0]] and the arguments after it; [None] when a copy
    into [wav_path] overruns the array. *)
Definition main (argv0 : string) (args : list string) (w : world)
    : option (world * Z) :=
  match args with
  | [] => Some (foldl (fun w s => printf s w) w (usage argv0), 1)
  | input :: rest =>
      match fopen_rb w input with
      | None =>
          Some (eprintf ("Error: Cannot access: " +:+ input +:+ nl) w, 1)
      | Some _ =>
          wav_path ← match rest with
                     | output :: _ => strcpy_at "" 0 output
                     | [] => derive_wav_path input
                     end;
          Some (convert_qoa_to_wav input wav_path w)
      end
  end.

End Converter.

(** The byte stream lines 85 and 86 of [convert_qoa_to_wav] send to the
    output file for a decoded buffer: the header, then the samples. *)
Definition wav_stream (e : endianness) (qoa : qoa_desc) (sample_data : list Z)
    : list byte :=
  write_wav_header e (samplerate qoa) (u16 (channels qoa))
    (u32 (samples qoa * channels qoa))
  ++ shorts_bytes e (take (Z.to_nat (u32 (samples qoa * channels qoa)))
                       sample_data).

(** ** Reading a header back *)

(** The integer fields of a header [bs], read with [rd] at the offsets of the
    canonical layout, hold the values [write_wav_header] stores for the
    arguments [sr], [ch] and [ns]. *)
Definition integer_fields (rd : list byte -> Z) (bs : list byte)
    (sr ch ns : Z) : Prop :=
  rd (slice 4 4 bs) = u32 (u32 (ns * ch * 2) + 36)
  /\ rd (slice 16 4 bs) = 16
  /\ rd (slice 20 2 bs) = 1
  /\ rd (slice 22 2 bs) = u16 ch
  /\ rd (slice 24 4 bs) = u32 sr
  /\ rd (slice 28 4 bs) = u32 (sr * ch * 2)
  /\ rd (slice 32 2 bs) = u16 (ch * 2)
  /\ rd (slice 34 2 bs) = 16
  /\ rd (slice 40 4 bs) = u32 (ns * ch * 2).

(** The four chunk tags stand at their offsets in [bs]. *)
Definition ascii_tags (bs : list byte) : Prop :=
  slice 0 4 bs = list_byte_of_string "RIFF"
  /\ slice 8 4 bs = list_byte_of_string "WAVE"
  /\ slice 12 4 bs = list_byte_of_string "fmt "
  /\ slice 36 4 bs = list_byte_of_string "data".

(** A value of type [short]. *)
Definition is_short (s : Z) : Prop := - 2 ^ 15 <= s < 2 ^ 15.

(** ** Sample platforms, decoder and file system *)

Definition little_endian_host : platform :=
  {| byte_order := LittleEndian; dir_stream := Some [];
     creatable := fun _ => true |}.

Definition big_endian_host : platform :=
  {| byte_order := BigEndian; dir_stream := None;
     creatable := fun _ => true |}.

(** A stand-in for [qoa_decode] on a toy format: the magic "qoaf", one byte
    for the channel count, then one byte per sample (offset by 128), at
    44100 Hz.  Anything else is rejected. *)
Definition stub_decode (bytes : list byte) (size : Z)
    : option (list Z * qoa_desc) :=
  let body := drop 5 bytes in
  let ch := Z_of_byte (default x00 (bytes !! 4%nat)) in
  if decide (take 4 bytes = list_byte_of_string "qoaf"
             /\ 0 < ch /\ size = Z.of_nat (length bytes)
             /\ Z.of_nat (length body) mod ch = 0)
  then Some (map (fun b => Z_of_byte b - 128) body,
             {| channels := ch; samplerate := 44100;
                samples := Z.of_nat (length body) / ch |})
  else None.

(** Three stereo frames in the toy format. *)
Definition track_qoa : list byte :=
  list_byte_of_string "qoaf" ++ [x02; x81; x7f; x82; x7e; x83; x7d].

Definition studio : world :=
  {| files := <["track.qoa" := File track_qoa]>
             (<["broken.qoa" := File (take 3 track_qoa)]>
             (<["./track" := File track_qoa]>
             (<["music" := Dir]>
             (<["music/a.qoa" := File track_qoa]>
             (<["music/b.qoa" := File (take 3 track_qoa)]> ∅)))));
     stdout := []; stderr := [] |}.

(** A buffer of 2^32 samples of silence, and a decoder that returns it as
    2^31 stereo frames. *)
Definition silence_2_32 : list Z := replicate (Z.to_nat (2 ^ 32)) 0.

Definition huge_decode (bytes : list byte) (size : Z)
    : option (list Z * qoa_desc) :=
  Some (silence_2_32,
        {| channels := 2; samplerate := 44100; samples := 2 ^ 31 |}).

(** An output path of 512 characters. *)
Definition long_output_path : string :=
  string_of_list_ascii (replicate 512 "a"%char).

(** ** Streams and heap blocks

    The resources the program acquires and gives back, and the events that
    record it: the converter is given a second time with every [fopen],
    [malloc], [fread], [fwrite], [fclose] and [free] on its way written down
    in program order.  The C text does not test what [malloc] returns: with
    a block or with NULL, the pointer goes to [fread], to [qoa_decode] and to
    [free].  The buffer [qoa_decode] returns is an allocation of its own,
    which the caller frees. *)

Inductive resource :=
  | TestStream      (* FILE *test, in main *)
  | QoaStream       (* FILE *qoa_file *)
  | WavStream       (* FILE *wav_file *)
  | QoaData         (* void *qoa_data *)
  | SampleData.     (* short *sample_data *)

Inductive event :=
  | Acquire (r : resource)    (* fopen, malloc, a buffer returned by qoa_decode *)
  | Access (r : resource)     (* the stream or block is handed to a call that
                                 reads or writes through it *)
  | Release (r : resource).   (* fclose, free *)

#[global] Instance resource_eq_decision : EqDecision resource.
Proof. solve_decision. Defined.

(** The discipline a trace has to keep, starting with the resources [held]:
    nothing is acquired twice, nothing is accessed or released that is not
    held.  The result is what is still held at the end; [None] reports a
    violation. *)
Fixpoint discipline (held : list resource) (es : list event)
    : option (list resource) :=
  match es with
  | [] => Some held
  | Acquire r :: es' =>
      if decide (r ∈ held) then None else discipline (r :: held) es'
  | Access r :: es' =>
      if decide (r ∈ held) then discipline held es' else None
  | Release r :: es' =>
      if decide (r ∈ held)
      then discipline (filter (fun x => x <> r) held) es'
      else None
  end.

Section Traced.

Variable pf : platform.
Variable qoa_decode : list byte -> Z -> option (list Z * qoa_desc).

(** [malloc (size)]: [true] when it returns a block, [false] for NULL. *)
Variable malloc_block : Z -> bool.

(** [convert_qoa_to_wav] statement by statement, with its events.  When
    [malloc] returns NULL there is no block to acquire and [free (NULL)]
    releases nothing, but [fread] and [qoa_decode] are handed the pointer
    all the same; what the program does from there on is undefined, and
    the world and status given for that case are those of the plain model. *)
Definition convert_qoa_to_wav_traced (qoa_path wav_path : string) (w : world)
    : world * Z * list event :=
  match fopen_rb pf w qoa_path with                 (* fopen (qoa_path, "rb") *)
  | None =>
      (eprintf ("Error: Cannot open QOA file: " +:+ qoa_path +:+ nl) w, 1, [])
  | Some qoa_data =>
      let file_size := Z.of_nat (length qoa_data) in
      let block := malloc_block file_size in
      let t := [ Acquire QoaStream;
                 Access QoaStream ]                 (* fseek, ftell, fseek *)
               ++ (if block then [ Acquire QoaData ] else [])   (* malloc *)
               ++ [ Access QoaStream; Access QoaData;           (* fread *)
                    Release QoaStream ] in          (* fclose *)
      match qoa_decode qoa_data (int_of_long file_size) with
      | None =>
          let t := t ++ [ Access QoaData ]          (* qoa_decode *)
                     ++ (if block then [ Release QoaData ] else []) in (* free *)
          (eprintf ("Error: Failed to decode QOA file" +:+ nl) w, 1, t)
      | Some (sample_data, qoa) =>
          let t := t ++ [ Access QoaData; Acquire SampleData ]  (* qoa_decode *)
                     ++ (if block then [ Release QoaData ] else []) in (* free *)
          let w := printf ("Decoded: " +:+ fmt_u (samples qoa)
                           +:+ " samples, " +:+ fmt_u (channels qoa)
                           +:+ " channels, " +:+ fmt_u (samplerate qoa)
                           +:+ " Hz" +:+ nl) w in
          match fopen_wb pf w wav_path with         (* fopen (wav_path, "wb") *)
          | None =>
              let t := t ++ [ Release SampleData ] in   (* free *)
              (eprintf ("Error: Cannot create WAV file: " +:+ wav_path
                        +:+ nl) w, 1, t)
          | Some w =>
              let t := t ++ [ Acquire WavStream ] in
              let w := fwrite wav_path
                         (write_wav_header (byte_order pf) (samplerate qoa)
                            (u16 (channels qoa))
                            (u32 (samples qoa * channels qoa))) w in
              let t := t ++ [ Access WavStream ] in     (* write_wav_header *)
              let w := fwrite wav_path
                         (shorts_bytes (byte_order pf)
                            (take (Z.to_nat (u32 (samples qoa * channels qoa)))
                               sample_data)) w in
              let t := t ++ [ Access SampleData; Access WavStream; (* fwrite *)
                              Release WavStream;        (* fclose *)
                              Release SampleData ] in   (* free *)
              (printf ("✓ Converted: " +:+ qoa_path +:+ " -> " +:+ wav_path
                       +:+ nl) w, 0, t)
          end
      end
  end.

(** [main] with its events: the access test opens and closes a stream of
    its own before the conversion starts. *)
Definition main_traced (argv0 : string) (args : list string) (w : world)
    : option (world * Z * list event) :=
  match args with
  | [] => Some (foldl (fun w s => printf s w) w (usage argv0), 1, [])
  | input :: rest =>
      match fopen_rb pf w input with                (* fopen (argv[1], "rb") *)
      | None =>
          Some (eprintf ("Error: Cannot access: " +:+ input +:+ nl) w, 1, [])
      | Some _ =>
          let t := [ Acquire TestStream; Release TestStream ] in  (* fclose *)
          wav_path ← match rest with
                     | output :: _ => strcpy_at "" 0 output
                     | [] => derive_wav_path input
                     end;
          let '(w, status, t') :=
            convert_qoa_to_wav_traced input wav_path w in
          Some (w, status, t ++ t')
      end
  end.

End Traced.

(** * Properties *)

(** ** Bytes and integer objects *)

Lemma Z_of_byte_range (b : byte) : 0 <= Z_of_byte b < 256.
Proof.
  unfold Z_of_byte. pose proof (Byte.to_N_bounded b). lia.
Qed.

Lemma Z_of_byte_of_Z (z : Z) : Z_of_byte (byte_of_Z z) = z mod 256.
Proof.
  unfold Z_of_byte, byte_of_Z.
  assert (Hr : 0 <= z mod 256 < 256) by (apply Z.mod_pos_bound; lia).
  destruct (Byte.of_N (Z.to_N (z mod 256))) as [b|] eqn:E; simpl.
  - apply Byte.to_of_N in E. rewrite E. lia.
  - apply Byte.of_N_None_iff in E. lia.
Qed.

Lemma length_le_bytes (n : nat) (z : Z) : length (le_bytes n z) = n.
Proof.
  revert z. induction n as [|n IH]; intros z; simpl; [reflexivity|].
  now rewrite IH.
Qed.

Lemma length_mem_bytes (e : endianness) (n : nat) (z : Z) :
  length (mem_bytes e n z) = n.
Proof.
  destruct e; simpl; [|rewrite length_reverse]; apply length_le_bytes.
Qed.

Lemma le_value_le_bytes (n : nat) (z : Z) :
  le_value (le_bytes n z) = z mod 256 ^ Z.of_nat n.
Proof.
  revert z. induction n as [|n IH]; intros z.
  - simpl. now rewrite Z.mod_1_r.
  - cbn [le_bytes le_value]. rewrite Z_of_byte_of_Z, IH.
    rewrite Nat2Z.inj_succ, Z.pow_succ_r by lia.
    rewrite Z.rem_mul_r by lia. rewrite Z.mod_mod by lia. reflexivity.
Qed.

(** Reading an integer object back on the host that stored it gives the
    stored value, reduced to the width of the object. *)
Lemma mem_value_mem_bytes (e : endianness) (n : nat) (z : Z) :
  mem_value e (mem_bytes e n z) = z mod 256 ^ Z.of_nat n.
Proof.
  destruct e; simpl.
  - apply le_value_le_bytes.
  - unfold be_value. rewrite reverse_involutive. apply le_value_le_bytes.
Qed.

Lemma field_of_slice (e : endianness) (off len : nat) (v : Z) (bs : list byte) :
  slice off len bs = mem_bytes e len v ->
  field_at e off len bs = v mod 256 ^ Z.of_nat len.
Proof.
  intros H. unfold field_at. rewrite H. apply mem_value_mem_bytes.
Qed.

Lemma u32_idemp (z : Z) : u32 (u32 z) = u32 z.
Proof. unfold u32. apply Z.mod_mod. lia. Qed.

Lemma u16_idemp (z : Z) : u16 (u16 z) = u16 z.
Proof. unfold u16. apply Z.mod_mod. lia. Qed.

Lemma u32_range (z : Z) : 0 <= u32 z < 2 ^ 32.
Proof. unfold u32. apply Z.mod_pos_bound. lia. Qed.

Lemma u32_small (z : Z) : 0 <= z < 2 ^ 32 -> u32 z = z.
Proof. intros H. unfold u32. now apply Z.mod_small. Qed.

(** ** The header *)

(** [wav_header_t] has no padding: the thirteen members follow one another,
    in their declaration order. *)
Lemma write_wav_header_unfold (e : endianness) (sr ch ns : Z) :
  write_wav_header e sr ch ns =
    list_byte_of_string "RIFF" ++ mem_bytes e 4 (u32 (u32 (ns * ch * 2) + 36))
    ++ list_byte_of_string "WAVE" ++ list_byte_of_string "fmt "
    ++ mem_bytes e 4 16 ++ mem_bytes e 2 1 ++ mem_bytes e 2 ch
    ++ mem_bytes e 4 sr ++ mem_bytes e 4 (u32 (sr * ch * 2))
    ++ mem_bytes e 2 (u16 (ch * 2)) ++ mem_bytes e 2 16
    ++ list_byte_of_string "data" ++ mem_bytes e 4 (u32 (ns * ch * 2)).
Proof. destruct e; reflexivity. Qed.

(** [sizeof (wav_header_t)] is 44. *)
Lemma length_write_wav_header (e : endianness) (sr ch ns : Z) :
  length (write_wav_header e sr ch ns) = 44%nat.
Proof. destruct e; reflexivity. Qed.

Lemma header_tags (e : endianness) (sr ch ns : Z) :
  ascii_tags (write_wav_header e sr ch ns).
Proof. destruct e; repeat split. Qed.

(** Each integer member reads back, in the byte order of the host, as the
    value the function stored. *)
Lemma header_fields_host_order (e : endianness) (sr ch ns : Z) :
  integer_fields (mem_value e) (write_wav_header e sr ch ns) sr ch ns.
Proof.
  pose proof (fun off len v => field_of_slice e off len v
                                 (write_wav_header e sr ch ns)) as F.
  unfold field_at in F.
  assert (W4 : forall v, v mod 256 ^ Z.of_nat 4 = u32 v) by reflexivity.
  assert (W2 : forall v, v mod 256 ^ Z.of_nat 2 = u16 v) by reflexivity.
  unfold integer_fields; repeat split.
  - rewrite (F 4%nat 4%nat (u32 (u32 (ns * ch * 2) + 36)))
      by (destruct e; reflexivity).
    rewrite W4. apply u32_idemp.
  - rewrite (F 16%nat 4%nat 16) by (destruct e; reflexivity). reflexivity.
  - rewrite (F 20%nat 2%nat 1) by (destruct e; reflexivity). reflexivity.
  - rewrite (F 22%nat 2%nat ch) by (destruct e; reflexivity). apply W2.
  - rewrite (F 24%nat 4%nat sr) by (destruct e; reflexivity). apply W4.
  - rewrite (F 28%nat 4%nat (u32 (sr * ch * 2))) by (destruct e; reflexivity).
    rewrite W4. apply u32_idemp.
  - rewrite (F 32%nat 2%nat (u16 (ch * 2))) by (destruct e; reflexivity).
    rewrite W2. apply u16_idemp.
  - rewrite (F 34%nat 2%nat 16) by (destruct e; reflexivity). reflexivity.
  - rewrite (F 40%nat 4%nat (u32 (ns * ch * 2))) by (destruct e; reflexivity).
    rewrite W4. apply u32_idemp.
Qed.

Lemma header_data_size (e : endianness) (sr ch ns : Z) :
  field_at e 40 4 (write_wav_header e sr ch ns) = u32 (ns * ch * 2).
Proof. apply (header_fields_host_order e sr ch ns). Qed.

Lemma header_file_size (e : endianness) (sr ch ns : Z) :
  field_at e 4 4 (write_wav_header e sr ch ns) = u32 (u32 (ns * ch * 2) + 36).
Proof. apply (header_fields_host_order e sr ch ns). Qed.

(** ** The sample payload *)

Lemma length_shorts_bytes (e : endianness) (l : list Z) :
  length (shorts_bytes e l) = (2 * length l)%nat.
Proof.
  unfold shorts_bytes. induction l as [|s l IH]; [reflexivity|].
  cbn [flat_map]. rewrite length_app, length_mem_bytes, IH. simpl. lia.
Qed.

Lemma s16_is_short (s : Z) : is_short s -> s16 (s mod 2 ^ 16) = s.
Proof.
  unfold is_short, s16. intros H. rewrite Z.mod_mod by lia.
  destruct (Z.ltb_spec (s mod 2 ^ 16) (2 ^ 15)) as [Hlt|Hge].
  - destruct (Z.lt_ge_cases s 0) as [Hneg|Hpos].
    + rewrite <- (Z.mod_add s 1) in Hlt by lia.
      rewrite Z.mod_small in Hlt by lia. lia.
    + apply Z.mod_small. lia.
  - destruct (Z.lt_ge_cases s 0) as [Hneg|Hpos].
    + rewrite <- (Z.mod_add s 1) by lia. rewrite Z.mod_small by lia. lia.
    + rewrite Z.mod_small in Hge by lia. lia.
Qed.

Lemma s16_u16 (s : Z) : s16 (u16 s) = s16 s.
Proof. unfold s16, u16. now rewrite Z.mod_mod by lia. Qed.

(** Reading the stored array back in the byte order of the host returns the
    samples, in their order. *)
Lemma read_shorts_host_order (e : endianness) (l : list Z) :
  read_shorts (mem_value e) (shorts_bytes e l) = map s16 l.
Proof.
  unfold shorts_bytes. induction l as [|s l IH]; [reflexivity|].
  cbn [flat_map map].
  assert (H : exists b0 b1, mem_bytes e 2 s = [b0; b1])
    by (destruct e; cbn; eauto).
  destruct H as (b0 & b1 & H). rewrite H. cbn [app read_shorts].
  rewrite IH, <- H, mem_value_mem_bytes.
  change (256 ^ Z.of_nat 2) with (2 ^ 16). fold (u16 s).
  now rewrite s16_u16.
Qed.

Lemma map_s16_shorts (l : list Z) : Forall is_short l -> map s16 l = l.
Proof.
  induction 1 as [|s l Hs _ IH]; [reflexivity|].
  cbn [map]. rewrite IH. f_equal.
  rewrite <- (s16_is_short s Hs) at 2. unfold s16. now rewrite Z.mod_mod by lia.
Qed.

(** ** The encoded stream *)

Lemma wav_stream_header (e : endianness) (qoa : qoa_desc) (l : list Z) :
  take 44 (wav_stream e qoa l)
  = write_wav_header e (samplerate qoa) (u16 (channels qoa))
      (u32 (samples qoa * channels qoa)).
Proof.
  unfold wav_stream. apply take_app_length'.
  now rewrite length_write_wav_header.
Qed.

Lemma wav_stream_payload (e : endianness) (qoa : qoa_desc) (l : list Z) :
  drop 44 (wav_stream e qoa l)
  = shorts_bytes e (take (Z.to_nat (u32 (samples qoa * channels qoa))) l).
Proof.
  unfold wav_stream. apply drop_app_length'.
  now rewrite length_write_wav_header.
Qed.

(** The Subchunk2Size the converter writes for a decoded buffer: the channel
    count enters twice, once in the caller's sample count and once in
    [write_wav_header]. *)
Lemma wav_stream_data_size (e : endianness) (qoa : qoa_desc) (l : list Z) :
  field_at e 40 4 (wav_stream e qoa l)
  = u32 (u32 (samples qoa * channels qoa) * u16 (channels qoa) * 2).
Proof.
  unfold field_at, slice.
  replace (take 4 (drop 40 (wav_stream e qoa l)))
    with (take 4 (drop 40 (take 44 (wav_stream e qoa l)))).
  - rewrite wav_stream_header. apply header_data_size.
  - rewrite skipn_firstn_comm, take_take. reflexivity.
Qed.

(** ** Size fields of the header *)

(** C1 (defect in the code).  The specification wants Subchunk2Size to be
    [frame_count * channel_count * 2] and ChunkSize to be that plus 36.  For
    a stereo buffer of three frames the converter stores 24 and 60, although
    the payload it writes after the header is 12 bytes long: the caller hands
    [samples * channels] to [write_wav_header], which multiplies by
    [channels] once more. *)
Theorem C1_stereo_data_size_doubled (e : endianness) :
  let qoa := {| channels := 2; samplerate := 44100; samples := 3 |} in
  let out := wav_stream e qoa [1; -1; 2; -2; 3; -3] in
  field_at e 40 4 out = 24
  /\ field_at e 4 4 out = 60
  /\ length (drop 44 out) = 12%nat
  /\ samples qoa * channels qoa * 2 = 12.
Proof. destruct e; vm_compute; repeat split. Qed.

(** The stream of a buffer that holds [samples * channels] values of type
    [short], that count being representable in [unsigned int]: 44 bytes of
    header, then the samples in their order. *)
Lemma wav_stream_of_a_whole_buffer
    (e : endianness) (qoa : qoa_desc) (sample_data : list Z) :
  Forall is_short sample_data ->
  Z.of_nat (length sample_data) = samples qoa * channels qoa ->
  samples qoa * channels qoa < 2 ^ 32 ->
  let out := wav_stream e qoa sample_data in
  Z.of_nat (length out) = 44 + samples qoa * channels qoa * 2
  /\ length (take 44 out) = 44%nat
  /\ length (drop 44 out) = (2 * length sample_data)%nat
  /\ read_shorts (mem_value e) (drop 44 out) = sample_data.
Proof.
  intros Hshort Hlen Hfit out.
  assert (Hcount : Z.to_nat (u32 (samples qoa * channels qoa))
                   = length sample_data).
  { rewrite u32_small by lia. rewrite <- Hlen. apply Nat2Z.id. }
  assert (Hout : length out = (44 + 2 * length sample_data)%nat).
  { unfold out, wav_stream.
    rewrite length_app, length_write_wav_header, length_shorts_bytes.
    rewrite Hcount, firstn_all. reflexivity. }
  split; [|split; [|split]].
  - rewrite Hout. lia.
  - rewrite length_take. lia.
  - rewrite length_drop. lia.
  - unfold out. rewrite wav_stream_payload, Hcount, firstn_all.
    rewrite read_shorts_host_order. now apply map_s16_shorts.
Qed.

(** The buffer [L0, R0, L1, R1, L2, R2] of the specification, with sample
    values 1, -1, 2, -2, 3, -3. *)
Lemma wav_stream_stereo_three_frames :
  let out := wav_stream LittleEndian
               {| channels := 2; samplerate := 44100; samples := 3 |}
               [1; -1; 2; -2; 3; -3] in
  Z.of_nat (length out) = 44 + 3 * 2 * 2
  /\ length (take 44 out) = 44%nat
  /\ length (drop 44 out) = 12%nat
  /\ read_shorts le_value (drop 44 out) = [1; -1; 2; -2; 3; -3].
Proof.
  apply (wav_stream_of_a_whole_buffer LittleEndian
           {| channels := 2; samplerate := 44100; samples := 3 |}
           [1; -1; 2; -2; 3; -3]).
  - repeat constructor; unfold is_short; lia.
  - reflexivity.
  - reflexivity.
Defined.

(** C3.  A buffer of zero frames is encoded as the header alone: 44 bytes,
    Subchunk2Size 0, and the tags "RIFF", "WAVE", "fmt " and "data" at
    offsets 0, 8, 12 and 36; so in particular at 44100 Hz with two
    channels. *)
Theorem C3_zero_frames_header_only
    (e : endianness) (sr ch : Z) (sample_data : list Z) :
  let out := wav_stream e {| channels := ch; samplerate := sr; samples := 0 |}
               sample_data in
  length out = 44%nat
  /\ field_at e 40 4 out = 0
  /\ ascii_tags out
  /\ out = write_wav_header e sr (u16 ch) 0.
Proof.
  intros out.
  assert (Hout : out = write_wav_header e sr (u16 ch) 0).
  { unfold out, wav_stream. cbn [samples channels samplerate].
    rewrite Z.mul_0_l. change (u32 0) with 0. cbn [Z.to_nat take shorts_bytes flat_map].
    apply app_nil_r. }
  rewrite Hout. split; [|split; [|split]].
  - apply length_write_wav_header.
  - rewrite header_data_size. now rewrite Z.mul_0_l.
  - apply header_tags.
  - reflexivity.
Qed.

(** The 44 bytes a little-endian host writes for 44100 Hz, two channels and
    no frame. *)
Example zero_frames_44100_stereo :
  wav_stream LittleEndian
    {| channels := 2; samplerate := 44100; samples := 0 |} []
  = list_byte_of_string "RIFF" ++ [x24; x00; x00; x00]
    ++ list_byte_of_string "WAVEfmt " ++ [x10; x00; x00; x00]
    ++ [x01; x00] ++ [x02; x00] ++ [x44; xac; x00; x00]
    ++ [x10; xb1; x02; x00] ++ [x04; x00] ++ [x10; x00]
    ++ list_byte_of_string "data" ++ [x00; x00; x00; x00].
Proof. vm_compute. reflexivity. Qed.

(** C4, as the code has it.  The RIFF size at offset 4 is the Subchunk2Size
    at offset 40 plus 36, computed in [uint32_t]: the sum itself while it is
    below 2^32, and the sum less 2^32 from there on. *)
Theorem C4_riff_size_is_data_size_plus_36_mod_2_32
    (e : endianness) (sr ch ns : Z) :
  let h := write_wav_header e sr ch ns in
  field_at e 4 4 h
  = if field_at e 40 4 h + 36 <? 2 ^ 32
    then field_at e 40 4 h + 36
    else field_at e 40 4 h + 36 - 2 ^ 32.
Proof.
  intros h. unfold h. rewrite header_file_size, header_data_size.
  pose proof (u32_range (ns * ch * 2)) as Hr.
  set (d := u32 (ns * ch * 2)) in *.
  destruct (Z.ltb_spec (d + 36) (2 ^ 32)) as [Hlt|Hge].
  - apply u32_small. lia.
  - unfold u32. symmetry. apply (Z.mod_unique (d + 36) (2 ^ 32) 1); lia.
Qed.

(** C4 fails as stated for a mono stream of 2^31 - 1 samples: Subchunk2Size
    is 2^32 - 2 and the RIFF size is 34. *)
Lemma C4_riff_size_wraps_around :
  field_at LittleEndian 40 4
    (write_wav_header LittleEndian 44100 1 2147483647) = 4294967294
  /\ field_at LittleEndian 4 4
       (write_wav_header LittleEndian 44100 1 2147483647) = 34.
Proof. vm_compute. split; reflexivity. Qed.

(** ** Byte order *)

(** C5, as the code has it.  The header and the samples leave the program in
    the byte order of the host, [fwrite] copying their object
    representation: little-endian on a little-endian host, big-endian on a
    big-endian one. *)
Theorem C5_fields_in_host_byte_order (sr ch ns : Z) (l : list Z) :
  integer_fields le_value (write_wav_header LittleEndian sr ch ns) sr ch ns
  /\ read_shorts le_value (shorts_bytes LittleEndian l) = map s16 l
  /\ integer_fields be_value (write_wav_header BigEndian sr ch ns) sr ch ns
  /\ read_shorts be_value (shorts_bytes BigEndian l) = map s16 l.
Proof.
  split; [|split; [|split]].
  - apply (header_fields_host_order LittleEndian).
  - apply (read_shorts_host_order LittleEndian).
  - apply (header_fields_host_order BigEndian).
  - apply (read_shorts_host_order BigEndian).
Qed.

(** C5 fails as stated on a big-endian host: read little-endian, the
    Subchunk1Size it writes is 16 * 2^24 and the samples 1 and 2 are 256 and
    512. *)
Lemma C5_big_endian_host_writes_big_endian :
  le_value (slice 16 4 (write_wav_header BigEndian 44100 2 0)) = 268435456
  /\ read_shorts le_value (shorts_bytes BigEndian [1; 2]) = [256; 512]
  /\ ~ integer_fields le_value (write_wav_header BigEndian 44100 2 0) 44100 2 0.
Proof.
  repeat apply conj; try (vm_compute; reflexivity).
  intros (_ & H & _). vm_compute in H. discriminate H.
Qed.

(** ** The output path *)

Lemma strcpy_fits (s : string) :
  (String.length s < WAV_PATH_SIZE)%nat -> strcpy_at "" 0 s = Some s.
Proof.
  intros H. unfold strcpy_at. rewrite decide_True by (simpl; lia). reflexivity.
Qed.

(** A path of 512 characters or more does not fit [wav_path]. *)
Lemma strcpy_overrun (s : string) :
  (WAV_PATH_SIZE <= String.length s)%nat -> strcpy_at "" 0 s = None.
Proof.
  intros H. unfold strcpy_at. rewrite decide_False by (simpl; lia). reflexivity.
Qed.

Lemma substring_all (s : string) : substring 0 (String.length s) s = s.
Proof. induction s as [|a s IH]; [reflexivity|]. simpl. now rewrite IH. Qed.

(** No '.' anywhere in the input: ".wav" is appended. *)
Lemma derive_wav_path_no_dot (input : string) :
  strrchr input "." = None ->
  (String.length input + 5 <= WAV_PATH_SIZE)%nat ->
  derive_wav_path input = Some (input +:+ ".wav").
Proof.
  intros Hdot Hfit. unfold derive_wav_path.
  rewrite strcpy_fits by lia. cbn [mbind option_bind]. rewrite Hdot.
  unfold strcpy_at. rewrite decide_True by (simpl; lia).
  now rewrite substring_all.
Qed.

(** Some '.' in the input: what follows the last one, wherever it stands in
    the path, is replaced. *)
Lemma derive_wav_path_last_dot (input : string) (ext : nat) :
  strrchr input "." = Some ext ->
  (String.length input < WAV_PATH_SIZE)%nat ->
  (ext + 5 <= WAV_PATH_SIZE)%nat ->
  derive_wav_path input = Some (substring 0 ext input +:+ ".wav").
Proof.
  intros Hdot Hfit Hext. unfold derive_wav_path.
  rewrite strcpy_fits by lia. cbn [mbind option_bind]. rewrite Hdot.
  unfold strcpy_at. now rewrite decide_True by (simpl; lia).
Qed.

(** ** Conversion of one file *)

Section Runs.

Variable pf : platform.
Variable qoa_decode : list byte -> Z -> option (list Z * qoa_desc).

(** Only the output path can change in the file system. *)
Lemma convert_frame (qoa_path wav_path : string) (w : world) (p : string) :
  p <> wav_path ->
  files (convert_qoa_to_wav pf qoa_decode qoa_path wav_path w).1 !! p
  = files w !! p.
Proof.
  intros Hp. unfold convert_qoa_to_wav.
  destruct (fopen_rb pf w qoa_path) as [qoa_data|]; [|reflexivity].
  destruct (qoa_decode _ _) as [[sample_data qoa]|]; [|reflexivity].
  unfold fopen_wb. cbn [printf files].
  destruct (files w !! wav_path) as [[content|]|];
    try destruct (creatable pf wav_path); cbn [fst eprintf printf fwrite files];
    try reflexivity;
    rewrite !lookup_alter_ne, lookup_insert_ne by congruence; reflexivity.
Qed.

(** A successful conversion leaves the encoded stream at the output path. *)
Lemma convert_writes_wav_stream (qoa_path wav_path : string) (w : world)
    (qoa_data : list byte) (sample_data : list Z) (qoa : qoa_desc) :
  fopen_rb pf w qoa_path = Some qoa_data ->
  qoa_decode qoa_data (int_of_long (Z.of_nat (length qoa_data)))
  = Some (sample_data, qoa) ->
  files w !! wav_path <> Some Dir ->
  creatable pf wav_path = true ->
  (convert_qoa_to_wav pf qoa_decode qoa_path wav_path w).2 = 0
  /\ files (convert_qoa_to_wav pf qoa_decode qoa_path wav_path w).1 !! wav_path
     = Some (File (wav_stream (byte_order pf) qoa sample_data)).
Proof.
  intros Hin Hdec Hdir Hcr. unfold convert_qoa_to_wav.
  rewrite Hin, Hdec. unfold fopen_wb. cbn [printf files]. rewrite Hcr.
  assert (Hopen : forall (o : option node) (A : Type) (a b : A), o <> Some Dir ->
            match o with Some Dir => a | _ => b end = b)
    by (intros [[?|]|] A a b Hn; congruence).
  rewrite Hopen by exact Hdir.
  cbn [fst snd printf fwrite files]. split; [reflexivity|].
  rewrite !lookup_alter_eq, lookup_insert_eq. reflexivity.
Qed.

(** C7.  When the decoder rejects the bytes of the input file (truncated or
    empty input included), the conversion reports the decode error on the
    standard error stream and returns 1; the file system is left as it
    was, the output path never having been opened. *)
Theorem C7_decode_failure_creates_no_output
    (qoa_path wav_path : string) (w : world) (qoa_data : list byte) :
  fopen_rb pf w qoa_path = Some qoa_data ->
  qoa_decode qoa_data (int_of_long (Z.of_nat (length qoa_data))) = None ->
  convert_qoa_to_wav pf qoa_decode qoa_path wav_path w
  = ({| files := files w; stdout := stdout w;
        stderr := stderr w ++ ["Error: Failed to decode QOA file" +:+ nl] |},
     1).
Proof.
  intros Hin Hdec. unfold convert_qoa_to_wav. now rewrite Hin, Hdec.
Qed.

(** C9, as the code has it.  Without arguments the usage text goes to the
    standard output and the exit status is 1; when the input path cannot
    be opened, the line "Error: Cannot access: <path>" goes to the
    standard error stream and the exit status is 1. *)
Theorem C9_usage_on_stdout_and_access_error_on_stderr
    (argv0 : string) (w : world) :
  main pf qoa_decode argv0 [] w
  = Some ({| files := files w; stdout := stdout w ++ usage argv0;
             stderr := stderr w |}, 1)
  /\ forall input rest,
       fopen_rb pf w input = None ->
       main pf qoa_decode argv0 (input :: rest) w
       = Some ({| files := files w; stdout := stdout w;
                  stderr := stderr w
                            ++ ["Error: Cannot access: " +:+ input +:+ nl] |},
               1).
Proof.
  split.
  - unfold main, usage, printf. cbn [foldl files stdout stderr].
    now rewrite <- !app_assoc.
  - intros input rest Hin. unfold main. now rewrite Hin.
Qed.

(** An output path given on the command line and short enough for the
    512-byte buffer it is copied to is handed to the conversion unchanged,
    and the same conversion runs as for a derived path. *)
Lemma main_passes_a_short_output_path
    (argv0 input output : string) (extra : list string) (w : world) :
  (String.length output < WAV_PATH_SIZE)%nat ->
  main pf qoa_decode argv0 (input :: output :: extra) w
  = match fopen_rb pf w input with
    | Some _ => Some (convert_qoa_to_wav pf qoa_decode input output w)
    | None => Some (eprintf ("Error: Cannot access: " +:+ input +:+ nl) w, 1)
    end
  /\ main pf qoa_decode argv0 [input] w
     = match fopen_rb pf w input with
       | Some _ =>
           match derive_wav_path input with
           | Some derived =>
               Some (convert_qoa_to_wav pf qoa_decode input derived w)
           | None => None
           end
       | None => Some (eprintf ("Error: Cannot access: " +:+ input +:+ nl) w, 1)
       end.
Proof.
  intros Hfit. unfold main. rewrite (strcpy_fits output Hfit).
  split; destruct (fopen_rb pf w input); reflexivity.
Qed.

(** C8 (defect in the code).  A directory argument is treated as a single
    input file: whatever the platform and the decoder do, the run ends
    without a WAV file for either of the QOA files in the directory, and
    touches no path but "music.wav". *)
Theorem C8_directory_argument_converts_no_file_in_it (argv0 : string) :
  exists w' rc,
    main pf qoa_decode argv0 ["music"] studio = Some (w', rc)
    /\ files w' !! "music/a.wav" = None
    /\ files w' !! "music/b.wav" = None
    /\ (forall p, p <> "music.wav" -> files w' !! p = files studio !! p).
Proof.
  unfold main.
  destruct (fopen_rb pf studio "music") as [qoa_data|].
  - change (derive_wav_path "music") with (Some "music.wav").
    cbn [mbind option_bind].
    destruct (convert_qoa_to_wav pf qoa_decode "music" "music.wav" studio)
      as [w' rc] eqn:E.
    assert (F : forall p, p <> "music.wav" -> files w' !! p = files studio !! p).
    { intros p Hp.
      pose proof (convert_frame "music" "music.wav" studio p Hp) as H.
      now rewrite E in H. }
    exists w', rc. repeat split; [rewrite F by discriminate; reflexivity ..| exact F].
  - eexists _, _. repeat split.
Qed.

End Runs.

(** ** Runs on the sample file system *)

(** The two paths the specification names. *)
Example derive_wav_path_track :
  derive_wav_path "track.qoa" = Some "track.wav"
  /\ derive_wav_path "track" = Some "track.wav".
Proof. split; reflexivity. Qed.

(** C6 (defect in the code).  The extension is looked for with [strrchr] in
    the whole path, not in its last component: for the extensionless inputs
    "./track" and "music.d/track" nothing is appended; the path is cut at the
    '.' of the directory part, and the tool writes ".wav", not
    "./track.wav". *)
Theorem C6_last_dot_in_a_directory_name :
  derive_wav_path "./track" = Some ".wav"
  /\ derive_wav_path "music.d/track" = Some "music.wav"
  /\ exists w',
       main little_endian_host stub_decode "qoa2wav" ["./track"] studio
       = Some (w', 0)
       /\ files w' !! ".wav"
          = Some (File (wav_stream LittleEndian
                          {| channels := 2; samplerate := 44100; samples := 3 |}
                          [1; -1; 2; -2; 3; -3]))
       /\ files w' !! "./track.wav" = None.
Proof.
  split; [reflexivity|]. split; [reflexivity|].
  eexists. split; [vm_compute; reflexivity|].
  split; vm_compute; reflexivity.
Qed.

(** A truncated input: the first three bytes of a track. *)
Lemma C7_truncated_input :
  convert_qoa_to_wav little_endian_host stub_decode "broken.qoa" "broken.wav"
    studio
  = ({| files := files studio; stdout := [];
        stderr := ["Error: Failed to decode QOA file" +:+ nl] |}, 1).
Proof.
  apply (C7_decode_failure_creates_no_output little_endian_host stub_decode
           "broken.qoa" "broken.wav" studio (take 3 track_qoa));
    reflexivity.
Defined.

(** C9 fails as stated: without arguments nothing is written to the standard
    error stream, and for a missing input what is written there is not the
    usage text. *)
Lemma C9_no_usage_text_on_stderr :
  main little_endian_host stub_decode "qoa2wav" [] studio
  = Some ({| files := files studio; stdout := usage "qoa2wav"; stderr := [] |},
          1)
  /\ main little_endian_host stub_decode "qoa2wav" ["missing.qoa"] studio
     = Some ({| files := files studio; stdout := [];
                stderr := ["Error: Cannot access: missing.qoa" +:+ nl] |}, 1).
Proof. split; reflexivity. Qed.

Lemma C9_missing_input :
  main big_endian_host stub_decode "qoa2wav" ["missing.qoa"; "out.wav"] studio
  = Some ({| files := files studio; stdout := [];
             stderr := ["Error: Cannot access: missing.qoa" +:+ nl] |}, 1).
Proof.
  apply (proj2 (C9_usage_on_stdout_and_access_error_on_stderr
                  big_endian_host stub_decode "qoa2wav" studio)).
  reflexivity.
Defined.

Lemma main_passes_output_without_extension :
  main little_endian_host stub_decode "qoa2wav" ["track.qoa"; "sound"] studio
  = Some (convert_qoa_to_wav little_endian_host stub_decode "track.qoa" "sound"
            studio)
  /\ main little_endian_host stub_decode "qoa2wav" ["track.qoa"] studio
     = Some (convert_qoa_to_wav little_endian_host stub_decode "track.qoa"
               "track.wav" studio).
Proof.
  apply (main_passes_a_short_output_path little_endian_host
           stub_decode "qoa2wav" "track.qoa" "sound" [] studio).
  unfold WAV_PATH_SIZE. simpl. lia.
Defined.

(** ** The payload and the output path, on the converter *)

Lemma wav_stream_count_wrapped_to_zero (e : endianness) (l : list Z) :
  wav_stream e {| channels := 2; samplerate := 44100; samples := 2 ^ 31 |} l
  = write_wav_header e 44100 2 0.
Proof.
  unfold wav_stream. cbn [channels samplerate samples].
  change (u32 (2 ^ 31 * 2)) with 0. change (u16 2) with 2.
  change (Z.to_nat 0) with 0%nat. rewrite take_0. apply app_nil_r.
Qed.

(** C2, as the code has it.  When the conversion succeeds on a decoded
    buffer of [frame_count * channel_count] samples, that count being below
    2^32, the file it leaves at the output path is the 44-byte header
    followed by exactly the samples of the buffer, 16 bits each, in their
    original interleaved order, [44 + frame_count * channel_count * 2] bytes
    in all. *)
Theorem C2_conversion_writes_the_interleaved_samples
    (pf : platform)
    (qoa_decode : list byte -> Z -> option (list Z * qoa_desc))
    (qoa_path wav_path : string) (w : world)
    (qoa_data : list byte) (sample_data : list Z) (qoa : qoa_desc) :
  fopen_rb pf w qoa_path = Some qoa_data ->
  qoa_decode qoa_data (int_of_long (Z.of_nat (length qoa_data)))
  = Some (sample_data, qoa) ->
  files w !! wav_path <> Some Dir ->
  creatable pf wav_path = true ->
  Forall is_short sample_data ->
  Z.of_nat (length sample_data) = samples qoa * channels qoa ->
  samples qoa * channels qoa < 2 ^ 32 ->
  exists out,
    files (convert_qoa_to_wav pf qoa_decode qoa_path wav_path w).1 !! wav_path
    = Some (File out)
    /\ Z.of_nat (length out) = 44 + samples qoa * channels qoa * 2
    /\ take 44 out
       = write_wav_header (byte_order pf) (samplerate qoa) (u16 (channels qoa))
           (u32 (samples qoa * channels qoa))
    /\ length (drop 44 out) = (2 * length sample_data)%nat
    /\ read_shorts (mem_value (byte_order pf)) (drop 44 out) = sample_data.
Proof.
  intros Hin Hdec Hdir Hcr Hshort Hlen Hfit.
  exists (wav_stream (byte_order pf) qoa sample_data).
  destruct (convert_writes_wav_stream pf qoa_decode qoa_path wav_path w
              qoa_data sample_data qoa Hin Hdec Hdir Hcr) as [_ Hfile].
  destruct (wav_stream_of_a_whole_buffer (byte_order pf) qoa sample_data
              Hshort Hlen Hfit) as (Hout & _ & Hpay & Hread).
  split; [exact Hfile|]. split; [exact Hout|].
  split; [apply wav_stream_header|]. split; [exact Hpay|exact Hread].
Qed.

(** The buffer [L0, R0, L1, R1, L2, R2] of the specification, decoded from
    the sample track with the values 1, -1, 2, -2, 3, -3. *)
Lemma C2_track_converted :
  exists out,
    files (convert_qoa_to_wav little_endian_host stub_decode "track.qoa"
             "track.wav" studio).1 !! "track.wav" = Some (File out)
    /\ Z.of_nat (length out) = 44 + 3 * 2 * 2
    /\ take 44 out = write_wav_header LittleEndian 44100 (u16 2) (u32 (3 * 2))
    /\ length (drop 44 out) = 12%nat
    /\ read_shorts le_value (drop 44 out) = [1; -1; 2; -2; 3; -3].
Proof.
  apply (C2_conversion_writes_the_interleaved_samples little_endian_host
           stub_decode "track.qoa" "track.wav" studio track_qoa
           [1; -1; 2; -2; 3; -3]
           {| channels := 2; samplerate := 44100; samples := 3 |}).
  - reflexivity.
  - reflexivity.
  - discriminate.
  - reflexivity.
  - repeat constructor; unfold is_short; lia.
  - reflexivity.
  - reflexivity.
Defined.

(** C2 fails as stated for a buffer of 2^31 stereo frames: the count the
    converter computes in [unsigned int] is 0, and the file it writes is the
    header alone, 44 bytes and not [44 + 2^31 * 2 * 2]. *)
Lemma C2_count_wraps_to_zero :
  Z.of_nat (length silence_2_32) = 2 ^ 31 * 2
  /\ Forall is_short silence_2_32
  /\ files (convert_qoa_to_wav little_endian_host huge_decode "track.qoa"
              "track.wav" studio).1 !! "track.wav"
     = Some (File (write_wav_header LittleEndian 44100 2 0))
  /\ length (write_wav_header LittleEndian 44100 2 0) = 44%nat
  /\ 44 + 2 ^ 31 * 2 * 2 = 8589934636.
Proof.
  split; [|split; [|split; [|split]]].
  - unfold silence_2_32. rewrite length_replicate. apply Z2Nat.id. lia.
  - apply Forall_replicate. unfold is_short. lia.
  - destruct (convert_writes_wav_stream little_endian_host huge_decode
                "track.qoa" "track.wav" studio track_qoa silence_2_32
                {| channels := 2; samplerate := 44100; samples := 2 ^ 31 |})
      as [_ Hfile]; [reflexivity|reflexivity|discriminate|reflexivity|].
    rewrite Hfile. cbn [byte_order little_endian_host].
    now rewrite wav_stream_count_wrapped_to_zero.
  - apply length_write_wav_header.
  - reflexivity.
Qed.

(** C10 (defect in the code).  An output path of 512 characters does not
    fit [char wav_path[512]]: the [strcpy] of line 113 writes past the end of
    the array and the run is undefined, on every platform and with every
    decoder, where the path should have been used as given. *)
Theorem C10_long_output_path_overruns_wav_path
    (pf : platform)
    (qoa_decode : list byte -> Z -> option (list Z * qoa_desc))
    (argv0 : string) :
  String.length long_output_path = 512%nat
  /\ fopen_rb pf studio "track.qoa" = Some track_qoa
  /\ main pf qoa_decode argv0 ["track.qoa"; long_output_path] studio = None.
Proof.
  split; [reflexivity|]. split; [reflexivity|].
  unfold main. change (fopen_rb pf studio "track.qoa") with (Some track_qoa).
  rewrite strcpy_overrun; [reflexivity|].
  unfold WAV_PATH_SIZE. now vm_compute.
Qed.

(** * Further properties of the converter *)

(** ** The header *)

(** [wav_header_t] is laid out without padding: whatever the arguments and
    the byte order, [write_wav_header] writes the thirteen members back to
    back, 44 bytes in all. *)
Theorem header_members_back_to_back (e : endianness) (sr ch ns : Z) :
  write_wav_header e sr ch ns
  = flat_map (member_bytes e) (header_members (wav_header sr ch ns))
  /\ length (write_wav_header e sr ch ns) = 44%nat.
Proof. destruct e; split; reflexivity. Qed.

(** For a sample rate that fits [uint32_t] and fewer than 2^15 channels, a
    reader of the header gets the arguments back and finds the derived
    fields consistent: BlockAlign is NumChannels times the bytes per sample,
    and ByteRate is SampleRate times BlockAlign (in 32 bits). *)
Theorem header_rates_consistent (e : endianness) (sr ch ns : Z) :
  0 <= sr < 2 ^ 32 ->
  0 <= ch < 2 ^ 15 ->
  let h := write_wav_header e sr ch ns in
  field_at e 22 2 h = ch
  /\ field_at e 24 4 h = sr
  /\ field_at e 32 2 h = field_at e 22 2 h * (field_at e 34 2 h / 8)
  /\ field_at e 28 4 h = u32 (field_at e 24 4 h * field_at e 32 2 h).
Proof.
  intros Hsr Hch h.
  destruct (header_fields_host_order e sr ch ns)
    as (_ & _ & _ & Hnc & Hrate & Hbr & Hba & Hbits & _).
  unfold field_at. fold h in Hnc, Hrate, Hbr, Hba, Hbits.
  rewrite Hnc, Hrate, Hbr, Hba, Hbits.
  assert (Hc : u16 ch = ch) by (unfold u16; apply Z.mod_small; lia).
  assert (Hc2 : u16 (ch * 2) = ch * 2) by (unfold u16; apply Z.mod_small; lia).
  rewrite Hc, Hc2, (u32_small sr) by lia.
  change (16 / 8) with 2.
  repeat split. f_equal. lia.
Qed.

Lemma header_rates_at_44100_stereo :
  let h := write_wav_header LittleEndian 44100 2 6 in
  field_at LittleEndian 22 2 h = 2
  /\ field_at LittleEndian 24 4 h = 44100
  /\ field_at LittleEndian 32 2 h
     = field_at LittleEndian 22 2 h * (field_at LittleEndian 34 2 h / 8)
  /\ field_at LittleEndian 28 4 h
     = u32 (field_at LittleEndian 24 4 h * field_at LittleEndian 32 2 h).
Proof.
  apply (header_rates_consistent LittleEndian 44100 2 6); lia.
Defined.

(** From 2^15 channels on, the store to the 16-bit BlockAlign truncates: the
    field holds [2 * channels - 2^16], while NumChannels still holds the
    channel count. *)
Theorem block_align_truncates (e : endianness) (sr ch ns : Z) :
  2 ^ 15 <= ch < 2 ^ 16 ->
  let h := write_wav_header e sr ch ns in
  field_at e 22 2 h = ch
  /\ field_at e 32 2 h = 2 * ch - 2 ^ 16.
Proof.
  intros Hch h.
  destruct (header_fields_host_order e sr ch ns)
    as (_ & _ & _ & Hnc & _ & _ & Hba & _).
  unfold field_at. fold h in Hnc, Hba. rewrite Hnc, Hba. split.
  - unfold u16. apply Z.mod_small. lia.
  - unfold u16. symmetry. apply (Z.mod_unique (ch * 2) (2 ^ 16) 1); lia.
Qed.

Lemma block_align_of_32768_channels :
  let h := write_wav_header BigEndian 8000 32768 0 in
  field_at BigEndian 22 2 h = 32768
  /\ field_at BigEndian 32 2 h = 2 * 32768 - 2 ^ 16.
Proof.
  apply (block_align_truncates BigEndian 8000 32768 0). lia.
Defined.

(** ** Header and payload together *)

(** For a decoded buffer of [samples * channels] shorts (sizes without
    overflow), the Subchunk2Size of the header is the channel count times the
    number of payload bytes that follow the header; the two are equal
    exactly when there is one channel or no frame. *)
Theorem data_size_is_channels_times_payload
    (e : endianness) (qoa : qoa_desc) (sample_data : list Z) :
  0 < channels qoa < 2 ^ 16 ->
  0 <= samples qoa ->
  Z.of_nat (length sample_data) = samples qoa * channels qoa ->
  samples qoa * channels qoa * channels qoa * 2 < 2 ^ 32 ->
  let out := wav_stream e qoa sample_data in
  field_at e 40 4 out = channels qoa * Z.of_nat (length (drop 44 out))
  /\ (field_at e 40 4 out = Z.of_nat (length (drop 44 out))
      <-> channels qoa = 1 \/ samples qoa = 0).
Proof.
  intros Hch Hs Hlen Hfit out.
  assert (Hbytes : Z.of_nat (length (drop 44 out))
                   = 2 * (samples qoa * channels qoa)).
  { unfold out. rewrite wav_stream_payload, length_shorts_bytes.
    assert (Hsc : 0 <= samples qoa * channels qoa < 2 ^ 32) by nia.
    rewrite (u32_small _ Hsc), <- Hlen, Nat2Z.id, firstn_all. lia. }
  assert (Hfield : field_at e 40 4 out
                   = channels qoa * Z.of_nat (length (drop 44 out))).
  { rewrite Hbytes. unfold out. rewrite wav_stream_data_size.
    assert (Hsc : 0 <= samples qoa * channels qoa < 2 ^ 32) by nia.
    rewrite (u32_small _ Hsc).
    assert (Hc : u16 (channels qoa) = channels qoa)
      by (unfold u16; apply Z.mod_small; lia).
    rewrite Hc, u32_small by nia. lia. }
  split; [exact Hfield|]. rewrite Hfield, Hbytes. split.
  - intros H. destruct (Z.eq_dec (channels qoa) 1) as [Hone|Hmore]; [now left|].
    right. nia.
  - intros [Hone|Hzero]; [rewrite Hone|rewrite Hzero]; lia.
Qed.

Lemma data_size_of_a_stereo_buffer :
  let out := wav_stream LittleEndian
               {| channels := 2; samplerate := 8000; samples := 3 |}
               [10; -10; 20; -20; 30; -30] in
  field_at LittleEndian 40 4 out = 2 * Z.of_nat (length (drop 44 out))
  /\ (field_at LittleEndian 40 4 out = Z.of_nat (length (drop 44 out))
      <-> 2 = 1 \/ 3 = 0).
Proof.
  apply (data_size_is_channels_times_payload LittleEndian
           {| channels := 2; samplerate := 8000; samples := 3 |}
           [10; -10; 20; -20; 30; -30]); cbn; lia.
Defined.

(** The number of shorts written is [samples * channels] reduced modulo 2^32,
    the product being computed in [unsigned int]: when the buffer holds at
    least that many, the payload is exactly that many of its first samples
    and the stream is 44 bytes plus two per sample longer. *)
Theorem payload_count_wraps
    (e : endianness) (qoa : qoa_desc) (sample_data : list Z) :
  let count := Z.to_nat ((samples qoa * channels qoa) mod 2 ^ 32) in
  (count <= length sample_data)%nat ->
  length (wav_stream e qoa sample_data) = (44 + 2 * count)%nat
  /\ read_shorts (mem_value e) (drop 44 (wav_stream e qoa sample_data))
     = map s16 (take count sample_data).
Proof.
  intros count Hcount. split.
  - unfold wav_stream.
    rewrite length_app, length_write_wav_header, length_shorts_bytes.
    rewrite length_take. fold (u32 (samples qoa * channels qoa)) in count.
    fold count. lia.
  - rewrite wav_stream_payload. apply read_shorts_host_order.
Qed.

Lemma payload_count_after_overflow :
  let qoa := {| channels := 2; samplerate := 44100; samples := 2147483649 |} in
  length (wav_stream LittleEndian qoa [7; 8; 9]) = (44 + 2 * 2)%nat
  /\ read_shorts le_value (drop 44 (wav_stream LittleEndian qoa [7; 8; 9]))
     = map s16 (take 2 [7; 8; 9]).
Proof.
  apply (payload_count_wraps LittleEndian
           {| channels := 2; samplerate := 44100; samples := 2147483649 |}
           [7; 8; 9]).
  vm_compute. lia.
Defined.

(** ** Outcomes of a conversion *)

Section Outcomes.

Variable pf : platform.
Variable qoa_decode : list byte -> Z -> option (list Z * qoa_desc).

Lemma fopen_wb_Some (w : world) (path : string) :
  files w !! path <> Some Dir ->
  creatable pf path = true ->
  fopen_wb pf w path
  = Some {| files := <[path := File []]> (files w);
            stdout := stdout w; stderr := stderr w |}.
Proof.
  intros Hdir Hcr. unfold fopen_wb. rewrite Hcr.
  destruct (files w !! path) as [[content|]|]; congruence.
Qed.

Lemma fopen_wb_None (w : world) (path : string) :
  files w !! path = Some Dir \/ creatable pf path = false ->
  fopen_wb pf w path = None.
Proof.
  intros [Hdir|Hcr]; unfold fopen_wb.
  - now rewrite Hdir.
  - rewrite Hcr. now destruct (files w !! path) as [[content|]|].
Qed.

Lemma fopen_wb_cases (w : world) (path : string) :
  (files w !! path <> Some Dir /\ creatable pf path = true)
  \/ (files w !! path = Some Dir \/ creatable pf path = false).
Proof.
  destruct (creatable pf path); [|right; now right].
  destruct (files w !! path) as [[content|]|]; auto; left; split; congruence.
Qed.

(** The conversion returns 0 or 1, and 0 exactly when the input can be read,
    the decoder accepts it and the output path can be opened for writing. *)
Theorem convert_returns_zero_iff (qoa_path wav_path : string) (w : world) :
  ((convert_qoa_to_wav pf qoa_decode qoa_path wav_path w).2 = 0
   \/ (convert_qoa_to_wav pf qoa_decode qoa_path wav_path w).2 = 1)
  /\ ((convert_qoa_to_wav pf qoa_decode qoa_path wav_path w).2 = 0
      <-> exists qoa_data decoded,
            fopen_rb pf w qoa_path = Some qoa_data
            /\ qoa_decode qoa_data (int_of_long (Z.of_nat (length qoa_data)))
               = Some decoded
            /\ files w !! wav_path <> Some Dir
            /\ creatable pf wav_path = true).
Proof.
  unfold convert_qoa_to_wav.
  destruct (fopen_rb pf w qoa_path) as [qoa_data|].
  2: { split; [now right|]. split; [discriminate|].
       intros (? & ? & ? & _). discriminate. }
  destruct (qoa_decode _ _) as [[sample_data qoa]|] eqn:Hdec.
  2: { split; [now right|]. split; [discriminate|].
       intros (d & dec & Hd & Hdec' & _). injection Hd as <-. congruence. }
  set (w1 := printf _ w).
  destruct (fopen_wb_cases w1 wav_path) as [[Hdir Hcr]|Hno].
  - rewrite fopen_wb_Some by assumption. cbn [snd].
    split; [now left|]. split; [|reflexivity].
    intros _. exists qoa_data, (sample_data, qoa). auto.
  - rewrite fopen_wb_None by assumption. cbn [snd].
    split; [now right|]. split; [discriminate|].
    intros (d & dec & _ & _ & Hdir & Hcr).
    destruct Hno as [H|H]; [destruct (Hdir H)|rewrite H in Hcr; discriminate Hcr].
Qed.

(** A conversion that fails, for whatever reason, leaves the file system as
    it was (no output file, no partial output) and adds one line to the
    standard error stream. *)
Theorem convert_failure_leaves_files (qoa_path wav_path : string) (w : world) :
  (convert_qoa_to_wav pf qoa_decode qoa_path wav_path w).2 <> 0 ->
  files (convert_qoa_to_wav pf qoa_decode qoa_path wav_path w).1 = files w
  /\ exists msg,
       stderr (convert_qoa_to_wav pf qoa_decode qoa_path wav_path w).1
       = stderr w ++ [msg].
Proof.
  unfold convert_qoa_to_wav.
  destruct (fopen_rb pf w qoa_path) as [qoa_data|]; [|intros _; cbn; eauto].
  destruct (qoa_decode _ _) as [[sample_data qoa]|]; [|intros _; cbn; eauto].
  set (w1 := printf _ w).
  destruct (fopen_wb_cases w1 wav_path) as [[Hdir Hcr]|Hno].
  - rewrite fopen_wb_Some by assumption. cbn [snd]. congruence.
  - rewrite fopen_wb_None by assumption. intros _. cbn. eauto.
Qed.


End Outcomes.

Lemma convert_missing_input :
  files (convert_qoa_to_wav little_endian_host stub_decode "nothing.qoa"
           "nothing.wav" studio).1 = files studio
  /\ exists msg,
       stderr (convert_qoa_to_wav little_endian_host stub_decode "nothing.qoa"
                 "nothing.wav" studio).1 = stderr studio ++ [msg].
Proof.
  apply (convert_failure_leaves_files little_endian_host stub_decode
           "nothing.qoa" "nothing.wav" studio).
  vm_compute. discriminate.
Defined.


(** ** Strings *)

Lemma append_cons (c : ascii) (a b : string) :
  String c a +:+ b = String c (a +:+ b).
Proof. reflexivity. Qed.

Lemma length_append (a b : string) :
  String.length (a +:+ b) = (String.length a + String.length b)%nat.
Proof.
  induction a as [|c a IH]; [reflexivity|].
  rewrite append_cons. simpl. now rewrite IH.
Qed.

Lemma substring_append (a b : string) :
  substring 0 (String.length a) (a +:+ b) = a.
Proof.
  induction a as [|c a IH]; [now destruct b|].
  rewrite append_cons. simpl. now rewrite IH.
Qed.

Lemma substring_split (s : string) (i : nat) :
  (i <= String.length s)%nat ->
  exists rest, s = substring 0 i s +:+ rest
               /\ String.length (substring 0 i s) = i.
Proof.
  revert i. induction s as [|c s IH]; intros [|i] Hi; simpl in *.
  - exists "". now split.
  - lia.
  - exists (String c s). now split.
  - destruct (IH i) as (rest & Hs & Hlen); [lia|].
    exists rest. rewrite append_cons. split; [now rewrite <- Hs|now rewrite Hlen].
Qed.

(** [strrchr] finds nothing exactly when the character does not occur. *)
Lemma strrchr_None_iff (s : string) (c : ascii) :
  strrchr s c = None <-> ~ In c (list_ascii_of_string s).
Proof.
  induction s as [|a s IH]; simpl; [tauto|].
  destruct (strrchr s c) as [i|].
  - split; [discriminate|]. intros H. exfalso. apply H. right.
    destruct (in_dec ascii_dec c (list_ascii_of_string s)) as [Hin|Hout];
      [exact Hin|]. apply IH in Hout. discriminate Hout.
  - destruct (Ascii.eqb_spec a c) as [->|Hne].
    + split; [discriminate|]. intros H. exfalso. apply H. now left.
    + split; [|reflexivity]. intros _ [Heq|Hin]; [congruence|].
      now apply (proj1 IH).
Qed.

(** [strrchr] returns the offset of the last occurrence. *)
Lemma strrchr_last (a b : string) (c : ascii) :
  strrchr b c = None ->
  strrchr (a +:+ String c b) c = Some (String.length a).
Proof.
  intros Hb. induction a as [|x a IH].
  - change ("" +:+ String c b) with (String c b). simpl.
    rewrite Hb. now rewrite Ascii.eqb_refl.
  - rewrite append_cons. simpl. now rewrite IH.
Qed.

Lemma strrchr_Some_split (s : string) (c : ascii) (i : nat) :
  strrchr s c = Some i ->
  exists b, s = substring 0 i s +:+ String c b
            /\ strrchr b c = None
            /\ String.length (substring 0 i s) = i.
Proof.
  revert i. induction s as [|a s IH]; intros i; simpl; [discriminate|].
  destruct (strrchr s c) as [j|] eqn:E.
  - intros [= <-]. destruct (IH j eq_refl) as (b & Hs & Hb & Hlen).
    exists b. simpl. rewrite append_cons, Hlen, <- Hs. auto.
  - destruct (Ascii.eqb_spec a c) as [->|Hne]; [|discriminate].
    intros [= <-]. exists s. simpl. auto.
Qed.

(** ** The derived output path, in general *)

(** What the derivation computes.  For an input without '.', ".wav" is
    appended; for an input [a.b] whose part [b] has no '.', everything from
    that last '.' on is replaced by ".wav".  Both need the result, and the
    copy of the input made first, to fit the 512-byte buffer. *)
Theorem derive_wav_path_spec (a b : string) :
  ~ In "."%char (list_ascii_of_string b) ->
  ((String.length b + 5 <= WAV_PATH_SIZE)%nat ->
   derive_wav_path b = Some (b +:+ ".wav"))
  /\ ((String.length (a +:+ "." +:+ b) < WAV_PATH_SIZE)%nat ->
      (String.length a + 5 <= WAV_PATH_SIZE)%nat ->
      derive_wav_path (a +:+ "." +:+ b) = Some (a +:+ ".wav")).
Proof.
  intros Hb. apply strrchr_None_iff in Hb. split.
  - intros Hfit. now apply derive_wav_path_no_dot.
  - intros Hfit Ha.
    rewrite (derive_wav_path_last_dot _ (String.length a)).
    + now rewrite substring_append.
    + change ("." +:+ b) with (String "." b). now apply strrchr_last.
    + exact Hfit.
    + exact Ha.
Qed.

Lemma derive_wav_path_of_archive_name :
  derive_wav_path ("sfx/intro.v2" +:+ "." +:+ "qoa") = Some ("sfx/intro.v2" +:+ ".wav").
Proof.
  apply (derive_wav_path_spec "sfx/intro.v2" "qoa").
  - simpl. intros [H|[H|[H|[]]]]; discriminate H.
  - unfold WAV_PATH_SIZE. simpl. lia.
  - unfold WAV_PATH_SIZE. simpl. lia.
Defined.

(** Whatever the derivation returns is a prefix of the input followed by
    ".wav", shorter than the buffer and at most four characters longer than
    the input; and it is a fixed point: deriving again from the result gives
    the result. *)
Theorem derive_wav_path_idempotent (input derived : string) :
  derive_wav_path input = Some derived ->
  (exists stem rest, input = stem +:+ rest /\ derived = stem +:+ ".wav")
  /\ (String.length derived < WAV_PATH_SIZE)%nat
  /\ (String.length derived <= String.length input + 4)%nat
  /\ derive_wav_path derived = Some derived.
Proof.
  intros H.
  assert (Hagain : forall stem,
             (String.length stem + 5 <= WAV_PATH_SIZE)%nat ->
             derive_wav_path (stem +:+ ".wav") = Some (stem +:+ ".wav")).
  { intros stem Hstem.
    rewrite (derive_wav_path_last_dot _ (String.length stem)).
    - now rewrite substring_append.
    - now apply (strrchr_last stem "wav").
    - rewrite length_append. simpl. lia.
    - exact Hstem. }
  destruct (le_lt_dec WAV_PATH_SIZE (String.length input)) as [Hbig|Hfit];
    unfold derive_wav_path in H.
  { rewrite strcpy_overrun in H by exact Hbig. discriminate H. }
  rewrite strcpy_fits in H by exact Hfit. cbn [mbind option_bind] in H.
  destruct (strrchr input ".") as [ext|] eqn:Hdot; unfold strcpy_at in H;
    case_decide as Hext; try discriminate H; injection H as <-.
  - destruct (strrchr_Some_split _ _ _ Hdot) as (b & Hs & _ & Hlen).
    set (stem := substring 0 ext input) in *.
    assert (Hin : String.length input
                  = (String.length stem + S (String.length b))%nat)
      by (rewrite Hs at 1; now rewrite length_append).
    repeat split.
    + exists stem, (String "." b). now split.
    + rewrite length_append, Hlen. simpl in *. lia.
    + rewrite length_append. simpl. lia.
    + apply Hagain. rewrite Hlen. simpl in Hext. lia.
  - rewrite substring_all. repeat split.
    + exists input, "". split; [|reflexivity].
      clear. induction input as [|c s IH]; [reflexivity|].
      rewrite append_cons. now rewrite <- IH.
    + rewrite length_append. simpl in *. lia.
    + rewrite length_append. simpl. lia.
    + apply Hagain. simpl in Hext. lia.
Qed.

Lemma derive_wav_path_twice :
  (exists stem rest, "take.1.qoa" = stem +:+ rest /\ "take.1.wav" = stem +:+ ".wav")
  /\ (String.length "take.1.wav" < WAV_PATH_SIZE)%nat
  /\ (String.length "take.1.wav" <= String.length "take.1.qoa" + 4)%nat
  /\ derive_wav_path "take.1.wav" = Some "take.1.wav".
Proof.
  apply (derive_wav_path_idempotent "take.1.qoa" "take.1.wav"). reflexivity.
Defined.

(** The derivation is undefined exactly when a copy overruns the buffer: the
    input itself has 512 characters or more, or ".wav" and its NUL would be
    written past the end, which takes an input without '.' of 508 characters
    or more, or a last '.' at offset 508 or beyond. *)
Theorem derive_wav_path_overrun (input : string) :
  derive_wav_path input = None
  <-> (WAV_PATH_SIZE <= String.length input)%nat
      \/ (strrchr input "." = None /\ (508 <= String.length input)%nat)
      \/ (exists ext, strrchr input "." = Some ext /\ (508 <= ext)%nat).
Proof.
  destruct (le_lt_dec WAV_PATH_SIZE (String.length input)) as [Hbig|Hfit];
    unfold derive_wav_path.
  { rewrite strcpy_overrun by exact Hbig. split; [|reflexivity]. now left. }
  rewrite strcpy_fits by exact Hfit. cbn [mbind option_bind].
  unfold WAV_PATH_SIZE in *.
  destruct (strrchr input ".") as [ext|]; unfold strcpy_at, WAV_PATH_SIZE;
    case_decide as Hext; simpl in Hext.
  - split; [discriminate|].
    intros [H|[[H _]|(i & [= <-] & H)]]; try discriminate; lia.
  - split; [|reflexivity]. intros _. right. right.
    exists ext. split; [reflexivity|lia].
  - split; [discriminate|].
    intros [H|[[_ H]|(i & H & _)]]; try discriminate; lia.
  - split; [|reflexivity]. intros _. right. left. split; [reflexivity|lia].
Qed.

(** ** Runs of the tool *)

Lemma diagnostic_not_open_1 (p q : string) :
  "Error: Cannot access: " +:+ p +:+ nl
  <> "Error: Cannot open QOA file: " +:+ q +:+ nl.
Proof.
  intros H. apply (f_equal (String.get 14)) in H. cbv in H. discriminate H.
Qed.

Lemma diagnostic_not_open_2 (q : string) :
  "Error: Failed to decode QOA file" +:+ nl
  <> "Error: Cannot open QOA file: " +:+ q +:+ nl.
Proof.
  intros H. apply (f_equal (String.get 7)) in H. cbv in H. discriminate H.
Qed.

Lemma diagnostic_not_open_3 (p q : string) :
  "Error: Cannot create WAV file: " +:+ p +:+ nl
  <> "Error: Cannot open QOA file: " +:+ q +:+ nl.
Proof.
  intros H. apply (f_equal (String.get 14)) in H. cbv in H. discriminate H.
Qed.

Lemma strrchr_lt (s : string) (c : ascii) (i : nat) :
  strrchr s c = Some i -> (i < String.length s)%nat.
Proof.
  intros H. destruct (strrchr_Some_split s c i H) as (b & Hs & _ & Hlen).
  rewrite Hs, length_append, Hlen. simpl. lia.
Qed.

Lemma derive_wav_path_short (input : string) :
  (String.length input <= 507)%nat -> is_Some (derive_wav_path input).
Proof.
  intros H. destruct (strrchr input ".") as [ext|] eqn:Hdot.
  - pose proof (strrchr_lt _ _ _ Hdot).
    rewrite (derive_wav_path_last_dot input ext); unfold WAV_PATH_SIZE;
      eauto; lia.
  - rewrite derive_wav_path_no_dot; unfold WAV_PATH_SIZE; eauto; lia.
Qed.

Section Tool.

Variable pf : platform.
Variable qoa_decode : list byte -> Z -> option (list Z * qoa_desc).
Variable malloc_block : Z -> bool.

(** The ways a conversion can end. *)
Lemma convert_outcome (qoa_path wav_path : string) (w : world) :
  let r := convert_qoa_to_wav pf qoa_decode qoa_path wav_path w in
  (r.2 = 0 /\ stderr r.1 = stderr w)
  \/ (r.2 = 1 /\ files r.1 = files w
      /\ ((fopen_rb pf w qoa_path = None
           /\ stderr r.1
              = stderr w ++ ["Error: Cannot open QOA file: " +:+ qoa_path +:+ nl])
          \/ stderr r.1 = stderr w ++ ["Error: Failed to decode QOA file" +:+ nl]
          \/ stderr r.1
             = stderr w ++ ["Error: Cannot create WAV file: " +:+ wav_path +:+ nl])).
Proof.
  unfold convert_qoa_to_wav.
  destruct (fopen_rb pf w qoa_path) as [qoa_data|]; [|right; cbn; auto].
  destruct (qoa_decode _ _) as [[sample_data qoa]|]; [|right; cbn; auto].
  unfold fopen_wb. cbn [printf files].
  destruct (files w !! wav_path) as [[content|]|];
    try destruct (creatable pf wav_path); cbn; auto 6.
Qed.

(** With a block from [malloc], the instrumented conversion is the
    conversion and its events keep the discipline and leave nothing held. *)
Lemma convert_traced_with_block (qoa_path wav_path : string) (w : world) :
  (forall qoa_data, fopen_rb pf w qoa_path = Some qoa_data ->
                    malloc_block (Z.of_nat (length qoa_data)) = true) ->
  (convert_qoa_to_wav_traced pf qoa_decode malloc_block qoa_path wav_path w).1
  = convert_qoa_to_wav pf qoa_decode qoa_path wav_path w
  /\ discipline []
       (convert_qoa_to_wav_traced pf qoa_decode malloc_block qoa_path wav_path
          w).2
     = Some [].
Proof.
  intros Hblock. unfold convert_qoa_to_wav_traced, convert_qoa_to_wav.
  destruct (fopen_rb pf w qoa_path) as [qoa_data|]; [|split; reflexivity].
  rewrite (Hblock qoa_data eq_refl).
  destruct (qoa_decode _ _) as [[sample_data qoa]|]; [|split; reflexivity].
  destruct (fopen_wb pf _ wav_path) as [w'|]; split; reflexivity.
Qed.

(** The resources of a conversion.  When the input cannot be opened nothing
    is acquired.  When [malloc] returns a block, the instrumented conversion
    is the conversion, and on every path from there its events keep the
    discipline and leave nothing held: each stream is closed, each block is
    freed exactly once, and nothing is used after that.  When [malloc]
    returns NULL, the pointer is handed to [fread] although no block is
    held: the discipline is broken. *)
Theorem convert_releases_everything
    (qoa_path wav_path : string) (w : world) :
  let r := convert_qoa_to_wav_traced pf qoa_decode malloc_block qoa_path
             wav_path w in
  match fopen_rb pf w qoa_path with
  | None => r.2 = []
  | Some qoa_data =>
      if malloc_block (Z.of_nat (length qoa_data))
      then r.1 = convert_qoa_to_wav pf qoa_decode qoa_path wav_path w
           /\ discipline [] r.2 = Some []
      else discipline [] r.2 = None
  end.
Proof.
  intros r. unfold r, convert_qoa_to_wav_traced, convert_qoa_to_wav.
  destruct (fopen_rb pf w qoa_path) as [qoa_data|]; [|reflexivity].
  destruct (malloc_block _);
    destruct (qoa_decode _ _) as [[sample_data qoa]|];
    try destruct (fopen_wb pf _ wav_path) as [w'|];
    try split; reflexivity.
Qed.

(** A whole run of the tool, [malloc] returning a block whenever it is
    called: the instrumented run is the run; its events are none at all, or
    the opening and the closing of the stream of the access test followed by
    the events of the one conversion, so that stream is closed before the
    conversion starts; and they keep the discipline and leave nothing
    held. *)
Theorem main_releases_everything
    (argv0 : string) (args : list string) (w : world)
    (r : world * Z * list event) :
  (forall size, malloc_block size = true) ->
  main_traced pf qoa_decode malloc_block argv0 args w = Some r ->
  main pf qoa_decode argv0 args w = Some r.1
  /\ discipline [] r.2 = Some []
  /\ (r.2 = []
      \/ exists input wav_path,
           r.2 = Acquire TestStream :: Release TestStream
                 :: (convert_qoa_to_wav_traced pf qoa_decode malloc_block input
                       wav_path w).2).
Proof.
  intros Hblock. unfold main_traced, main.
  destruct args as [|input rest]; [intros [= <-]; cbn; auto|].
  destruct (fopen_rb pf w input) as [d|]; [|intros [= <-]; cbn; auto].
  destruct (match rest with
            | [] => derive_wav_path input
            | output :: _ => strcpy_at "" 0 output
            end) as [wav_path|]; cbn [mbind option_bind]; [|discriminate].
  destruct (convert_traced_with_block input wav_path w) as [Hfst Hdisc];
    [intros; apply Hblock|].
  destruct (convert_qoa_to_wav_traced pf qoa_decode malloc_block input
              wav_path w) as [[w' status] t] eqn:E.
  cbn [fst snd] in *. intros [= <-]. cbn [fst snd].
  split; [now rewrite <- Hfst|]. split.
  - exact Hdisc.
  - right. exists input, wav_path. now rewrite E.
Qed.

(** A run that is defined ends in one of two ways: with status 0 and nothing
    added to the standard error stream, or with status 1 and the file system
    as it was. *)
Theorem main_exit_status
    (argv0 : string) (args : list string) (w w' : world) (status : Z) :
  main pf qoa_decode argv0 args w = Some (w', status) ->
  (status = 0 /\ stderr w' = stderr w)
  \/ (status = 1 /\ files w' = files w).
Proof.
  unfold main. destruct args as [|input rest]; [intros [= <- <-]; now right|].
  destruct (fopen_rb pf w input) as [d|]; [|intros [= <- <-]; now right].
  destruct (match rest with
            | [] => derive_wav_path input
            | output :: _ => strcpy_at "" 0 output
            end) as [wav_path|]; cbn [mbind option_bind]; [|discriminate].
  intros [= H]. pose proof (convert_outcome input wav_path w) as Ho.
  cbv zeta in Ho. rewrite H in Ho. cbn [fst snd] in Ho.
  destruct Ho as [[? ?]|(? & ? & _)]; auto.
Qed.

(** [main] opens the input itself before it calls the conversion, so the
    conversion's own "Cannot open QOA file" diagnostic never ends a run of
    the tool. *)
Theorem main_never_reports_open_failure
    (argv0 : string) (args : list string) (w w' : world) (status : Z)
    (path : string) :
  main pf qoa_decode argv0 args w = Some (w', status) ->
  stderr w' <> stderr w ++ ["Error: Cannot open QOA file: " +:+ path +:+ nl].
Proof.
  assert (Hsame : forall (l : list string) m, l <> l ++ [m]).
  { intros l m H. apply (f_equal length) in H. rewrite length_app in H.
    simpl in H. lia. }
  assert (Hother : forall (l : list string) m m', m <> m' -> l ++ [m] <> l ++ [m']).
  { intros l m m' Hne H. apply app_inv_head in H. congruence. }
  unfold main. destruct args as [|input rest].
  { intros [= <- <-]. apply Hsame. }
  destruct (fopen_rb pf w input) as [d|] eqn:Hin.
  2: { intros [= <- <-]. apply Hother, diagnostic_not_open_1. }
  destruct (match rest with
            | [] => derive_wav_path input
            | output :: _ => strcpy_at "" 0 output
            end) as [wav_path|]; cbn [mbind option_bind]; [|discriminate].
  intros [= H]. pose proof (convert_outcome input wav_path w) as Ho.
  cbv zeta in Ho. rewrite H in Ho. cbn [fst snd] in Ho.
  destruct Ho as [[_ ->]|(_ & _ & [[Hn _]|[-> | ->]])].
  - apply Hsame.
  - congruence.
  - apply Hother, diagnostic_not_open_2.
  - apply Hother, diagnostic_not_open_3.
Qed.

(** With every path argument of at most 507 characters no copy overruns
    [wav_path]: the run is defined. *)
Theorem main_defined_for_short_paths
    (argv0 : string) (args : list string) (w : world) :
  Forall (fun s => (String.length s <= 507)%nat) args ->
  is_Some (main pf qoa_decode argv0 args w).
Proof.
  intros Hargs. unfold main. destruct args as [|input rest]; [eauto|].
  destruct (fopen_rb pf w input) as [d|]; [|eauto].
  apply Forall_cons in Hargs as [Hinput Hrest].
  destruct rest as [|output rest'].
  - destruct (derive_wav_path_short input Hinput) as [wav_path ->]. cbn. eauto.
  - apply Forall_cons in Hrest as [Houtput _].
    rewrite strcpy_fits by (unfold WAV_PATH_SIZE; lia). cbn. eauto.
Qed.


End Tool.

Lemma main_releases_everything_on_track :
  let t := [ Acquire TestStream; Release TestStream;
             Acquire QoaStream; Access QoaStream; Acquire QoaData;
             Access QoaStream; Access QoaData; Release QoaStream;
             Access QoaData; Acquire SampleData; Release QoaData;
             Acquire WavStream; Access WavStream; Access SampleData;
             Access WavStream; Release WavStream; Release SampleData ] in
  main_traced little_endian_host stub_decode (fun _ => true) "qoa2wav"
    ["track.qoa"] studio
  = Some ((convert_qoa_to_wav little_endian_host stub_decode "track.qoa"
             "track.wav" studio), t)
  /\ discipline [] t = Some [].
Proof.
  assert (Hrun : main_traced little_endian_host stub_decode (fun _ => true)
                   "qoa2wav" ["track.qoa"] studio
                 = Some ((convert_qoa_to_wav little_endian_host stub_decode
                            "track.qoa" "track.wav" studio),
                         [ Acquire TestStream; Release TestStream;
                           Acquire QoaStream; Access QoaStream; Acquire QoaData;
                           Access QoaStream; Access QoaData; Release QoaStream;
                           Access QoaData; Acquire SampleData; Release QoaData;
                           Acquire WavStream; Access WavStream;
                           Access SampleData; Access WavStream;
                           Release WavStream; Release SampleData ]))
    by (vm_compute; reflexivity).
  split; [exact Hrun|].
  exact (proj1 (proj2 (main_releases_everything little_endian_host stub_decode
                         (fun _ => true) "qoa2wav" ["track.qoa"] studio _
                         (fun _ => eq_refl) Hrun))).
Defined.

Lemma main_exit_status_on_broken_input :
  (1 = 0 /\ stderr (eprintf ("Error: Failed to decode QOA file" +:+ nl) studio)
            = stderr studio)
  \/ (1 = 1 /\ files (eprintf ("Error: Failed to decode QOA file" +:+ nl) studio)
               = files studio).
Proof.
  apply (main_exit_status little_endian_host stub_decode "qoa2wav"
           ["broken.qoa"; "out.wav"] studio).
  reflexivity.
Defined.

Lemma main_decode_failure_is_not_open_failure :
  main little_endian_host stub_decode "qoa2wav" ["broken.qoa"] studio
  = Some (eprintf ("Error: Failed to decode QOA file" +:+ nl) studio, 1)
  /\ stderr (eprintf ("Error: Failed to decode QOA file" +:+ nl) studio)
     <> stderr studio
        ++ ["Error: Cannot open QOA file: " +:+ "broken.qoa" +:+ nl].
Proof.
  split; [reflexivity|].
  apply (main_never_reports_open_failure little_endian_host stub_decode
           "qoa2wav" ["broken.qoa"] studio _ 1 "broken.qoa").
  reflexivity.
Defined.

Lemma main_defined_on_track :
  is_Some (main big_endian_host stub_decode "qoa2wav" ["track.qoa"; "out.wav"]
             studio).
Proof.
  apply (main_defined_for_short_paths big_endian_host stub_decode "qoa2wav"
           ["track.qoa"; "out.wav"] studio).
  repeat constructor; simpl; lia.
Defined.

